(** * Thread: random sums on worker threads (main.cpp)

    A shallow embedding of [ThreadRNG], [SumTask] and [SumCoordinator]
    from [src/main.cpp], followed by the properties of the specification
    that are checked against it.

    Conventions of the embedding.
    - [int] values are integers of [Z] in the range [INT_MIN .. INT_MAX];
      [unsigned], [std::uint64_t] and [std::size_t] values are integers
      reduced modulo [2^32], [2^64] and [2^64].  Every conversion the
      source performs is written out.
    - A [std::vector] is a list; an iterator into it is a position
      ([begin] is [0], [end] is the length).
    - The pieces of the C++ standard library the program calls but does
      not define (the Mersenne twister, the uniform distribution and the
      vector's [max_size]) are the fields of the class [StdLib]; their
      documented contracts are stated as propositions and assumed only
      where a proof needs them.
    - The values read from [std::random_device] and from the clock are an
      input of [SumTask.call] (a record [Entropy]).
    - Worker threads share nothing: thread [i] writes the result of task
      [i] only and the coordinator reads it after [join].  The effect of
      a thread on its task is therefore applied when the thread is
      joined. *)

From Stdlib Require Import ZArith Lia.
From stdpp Require Import base tactics option list numbers strings pretty.

Local Open Scope Z_scope.

(** ** Machine integers *)

Definition INT_MIN : Z := - 2 ^ 31.
Definition INT_MAX : Z := 2 ^ 31 - 1.

(** The values of type [int]. *)
Definition is_int (x : Z) : Prop := INT_MIN <= x <= INT_MAX.

(** [static_cast<unsigned>(x)] *)
Definition to_unsigned (x : Z) : Z := x mod 2 ^ 32.

(** [static_cast<std::uint64_t>(x)], and the reduction every
    [std::uint64_t] operation ends with. *)
Definition to_uint64 (x : Z) : Z := x mod 2 ^ 64.

(** The implicit conversion of an [int] argument to [std::size_t]. *)
Definition to_size_t (x : Z) : Z := x mod 2 ^ 64.

(** ** Control: counted loops and exceptions *)

(** [for (int i = lo; i < hi; ++i) s = body(i, s);]
    The loop runs [hi - lo] times, and not at all when [hi <= lo]. *)
Fixpoint for_iter {St : Type} (k : nat) (i : Z) (body : Z → St → St) (s : St) : St :=
  match k with
  | O => s
  | S k' => for_iter k' (i + 1) body (body i s)
  end.

Definition for_range {St : Type} (lo hi : Z) (body : Z → St → St) (s : St) : St :=
  for_iter (Z.to_nat (hi - lo)) lo body s.

Inductive exn : Set :=
  | length_error.

Inductive result (A : Type) : Type :=
  | Ok (a : A)
  | Throw (e : exn).
Arguments Ok {A} a.
Arguments Throw {A} e.

(** Sequencing of calls that may throw, with stdpp's [x ← r; k]. *)
#[global] Instance result_ret : MRet result := λ A a, Ok a.
#[global] Instance result_bind : MBind result := λ A B k r,
  match r with
  | Ok a => k a
  | Throw e => Throw e
  end.

(** ** The standard library the program is linked against *)

Class StdLib : Type := {
  (** the state of a [std::mt19937] engine *)
  mt19937 : Type;
  (** [std::mt19937(seq)] for a [std::seed_seq] built from the given words *)
  mt19937_seed : list Z → mt19937;
  (** [std::uniform_int_distribution<int> dist(low, high); dist(eng)]:
      the value drawn and the engine after the draw *)
  uniform_int_distribution : Z → Z → mt19937 → Z * mt19937;
  (** [std::vector<SumTask>::max_size()] *)
  vector_max_size : Z;
}.

(** Contract of [std::uniform_int_distribution]: for [low <= high] the
    value drawn lies in the closed interval. (For [low > high] the
    behaviour is undefined, and nothing is assumed.) *)
Definition uniform_in_range (L : StdLib) : Prop :=
  ∀ (low high : Z) (e : mt19937),
    low <= high →
    low <= (uniform_int_distribution low high e).1 <= high.

(** [max_size()] covers every non-negative [int] and is at most
    [PTRDIFF_MAX], as on the usual 64-bit platforms. *)
Definition max_size_64 (L : StdLib) : Prop :=
  INT_MAX <= vector_max_size < 2 ^ 63.

(** [v.reserve(n)]: throws [std::length_error] when [n > max_size()];
    otherwise only the capacity changes, and the elements stay.
    Whether the allocator then grants the storage ([std::bad_alloc])
    depends on the machine and is outside this model. *)
Definition reserve `{StdLib} {A : Type} (v : list A) (n : Z) : result (list A) :=
  if vector_max_size <? n then Throw length_error else Ok v.

(** [std::max_element(first, last, comp)] on the whole vector, as the
    position of the element found.  The reference algorithm: [last] when
    the range is empty; otherwise scan left to right and move to a later
    element only when [comp] holds between the element kept so far and
    the current one. *)
Fixpoint max_element_scan {A : Type} (comp : A → A → bool)
    (rest : list A) (first : nat) (largest_val : A) (largest : nat) : nat :=
  match rest with
  | [] => largest
  | x :: rest' =>
      if comp largest_val x
      then max_element_scan comp rest' (S first) x first
      else max_element_scan comp rest' (S first) largest_val largest
  end.

Definition max_element {A : Type} (comp : A → A → bool) (v : list A) : nat :=
  match v with
  | [] => length v
  | x :: rest => max_element_scan comp rest 1%nat x 0%nat
  end.

(** A [std::thread] handle: the task it was started on (the position of
    the element [std::ref(task)] refers to) and whether it is still
    joinable. *)
Record thread : Set := Thread {
  target : nat;
  joinable : bool;
}.

(** What one worker thread reads from its environment while seeding:
    the two calls of [rd()] and the clock's tick count. *)
Record Entropy : Set := {
  rd_first : Z;
  clock_count : Z;
  rd_second : Z;
}.

(** ** class ThreadRNG *)
Module ThreadRNG.
Section WithLib.
Context `{StdLib}.

Record t : Type := Make { eng_ : mt19937 }.

Definition make_seed (ent : Entropy) (seed_hint : Z) : mt19937 :=
  let now := to_unsigned (clock_count ent) in
  mt19937_seed
    [rd_first ent; now; seed_hint; rd_second ent; Z.lxor now 0x9e3779b9].

(** [explicit ThreadRNG(unsigned seed_hint)] *)
Definition new (ent : Entropy) (seed_hint : Z) : t :=
  {| eng_ := make_seed ent seed_hint |}.

(** For [low > high] the distribution has no defined behaviour; what the
    model returns there means nothing, and the properties of draws are
    stated for [low <= high] or for runs that draw nothing. *)
Definition uniform_int (rng : t) (low high : Z) : Z * t :=
  let '(v, e) := uniform_int_distribution low high (eng_ rng) in
  (v, {| eng_ := e |}).
End WithLib.
End ThreadRNG.

(** ** class SumTask *)
Module SumTask.

(** [struct Config] *)
Module Config.
Record t : Set := {
  id : Z;
  samples : Z;
  min_val : Z;
  max_val : Z;
}.
End Config.

Record t : Set := Make {
  cfg_ : Config.t;
  result_ : Z;
}.

(** [explicit SumTask(Config cfg) : cfg_(cfg), result_(0)] *)
Definition new (cfg : Config.t) : t :=
  {| cfg_ := cfg; result_ := 0 |}.

Definition id (task : t) : Z := Config.id (cfg_ task).
Definition result (task : t) : Z := result_ task.

Section WithLib.
Context `{StdLib}.

(** One turn of the loop of [operator()]:
    [acc += static_cast<std::uint64_t>(rng.uniform_int(min_val, max_val))]. *)
Definition step (cfg : Config.t) (st : Z * ThreadRNG.t) : Z * ThreadRNG.t :=
  let '(acc, rng) := st in
  let '(v, rng') :=
    ThreadRNG.uniform_int rng (Config.min_val cfg) (Config.max_val cfg) in
  (to_uint64 (acc + to_uint64 v), rng').

(** [void operator()()] *)
Definition call (ent : Entropy) (task : t) : t :=
  let rng := ThreadRNG.new ent (to_unsigned (Config.id (cfg_ task))) in
  let acc := 0 in
  let '(acc, _) :=
    for_range 0 (Config.samples (cfg_ task)) (λ _, step (cfg_ task)) (acc, rng) in
  {| cfg_ := cfg_ task; result_ := acc |}.

(** The values the [k] calls of [uniform_int] made by the loop return,
    in order. *)
Fixpoint drawn (k : nat) (cfg : Config.t) (rng : ThreadRNG.t) : list Z :=
  match k with
  | O => []
  | S k' =>
      let '(v, rng') :=
        ThreadRNG.uniform_int rng (Config.min_val cfg) (Config.max_val cfg) in
      v :: drawn k' cfg rng'
  end.

Definition drawn_by (ent : Entropy) (task : t) : list Z :=
  drawn (Z.to_nat (Config.samples (cfg_ task))) (cfg_ task)
    (ThreadRNG.new ent (to_unsigned (Config.id (cfg_ task)))).
End WithLib.
End SumTask.

(** ** class SumCoordinator *)
Module SumCoordinator.
Record t : Set := Make {
  tasks_ : list SumTask.t;
  threads_ : list thread;
}.

Section WithLib.
Context `{StdLib}.

(** [SumCoordinator(int thread_count, int samples_per_thread, int minv,
    int maxv)] *)
Definition new (thread_count samples_per_thread minv maxv : Z) : result t :=
  tasks ← reserve [] (to_size_t thread_count);
  let tasks :=
    for_range 0 thread_count
      (λ i tasks,
         tasks ++ [SumTask.new {| SumTask.Config.id := i;
                                  SumTask.Config.samples := samples_per_thread;
                                  SumTask.Config.min_val := minv;
                                  SumTask.Config.max_val := maxv |}])
      tasks in
  Ok {| tasks_ := tasks; threads_ := [] |}.

(** First loop of [run_all]: one [threads_.emplace_back(std::ref(task))]
    per task; [i] is the position of [task]. *)
Fixpoint spawn_each (i : nat) (tasks : list SumTask.t) (threads : list thread)
    : list thread :=
  match tasks with
  | [] => threads
  | _ :: rest =>
      spawn_each (S i) rest (threads ++ [{| target := i; joinable := true |}])
  end.

(** [t.join()]: the thread has run [operator()] of its task, and the
    handle is not joinable any more. *)
Definition join (ents : nat → Entropy) (th : thread) (tasks : list SumTask.t)
    : thread * list SumTask.t :=
  ({| target := target th; joinable := false |},
   alter (SumTask.call (ents (target th))) (target th) tasks).

(** Second loop of [run_all]: [if (t.joinable()) t.join();] *)
Fixpoint join_each (ents : nat → Entropy) (threads : list thread)
    (tasks : list SumTask.t) : list thread * list SumTask.t :=
  match threads with
  | [] => ([], tasks)
  | th :: rest =>
      let '(th', tasks') :=
        if joinable th then join ents th tasks else (th, tasks) in
      let '(rest', tasks'') := join_each ents rest tasks' in
      (th' :: rest', tasks'')
  end.

(** [void run_all()]; [ents i] is what the thread of task [i] reads
    from the random device and the clock. *)
Definition run_all (ents : nat → Entropy) (c : t) : t :=
  let threads := spawn_each 0 (tasks_ c) (threads_ c) in
  let '(threads, tasks) := join_each ents threads (tasks_ c) in
  {| tasks_ := tasks; threads_ := threads |}.

Definition summaries (c : t) : list (Z * Z) :=
  foldl (λ out task, out ++ [(SumTask.id task, SumTask.result task)])
        [] (tasks_ c).

(** The iterator [it] of [best()]. *)
Definition best_it (c : t) : nat :=
  max_element (λ a b, SumTask.result a <? SumTask.result b) (tasks_ c).

(** [best()]: [None] stands for the dereference of an iterator that
    points to no element, which has no defined behaviour. *)
Definition best (c : t) : option (Z * Z) :=
  task ← tasks_ c !! best_it c;
  Some (SumTask.id task, SumTask.result task).
End WithLib.
End SumCoordinator.

(** ** The seed sequence and main *)

(** The words [make_seed] hands to [std::seed_seq], in order. *)
Definition seed_words (ent : Entropy) (seed_hint : Z) : list Z :=
  let now := to_unsigned (clock_count ent) in
  [rd_first ent; now; seed_hint; rd_second ent; Z.lxor now 0x9e3779b9].

(** The values of type [unsigned]. *)
Definition is_unsigned (x : Z) : Prop := 0 <= x < 2 ^ 32.

Definition kThreads : Z := 10.
Definition kSamples : Z := 100.
Definition kMin : Z := 1.
Definition kMax : Z := 1000.

(** The newline character. *)
Definition nl : string := String (Ascii.ascii_of_nat 10) EmptyString.

(** What [main] writes to [std::cout], piece by piece; [cout << x] appends
    the decimal digits of an integer [x]. *)
Definition print_header : string :=
  "Resultados por hilo (suma de " +:+ pretty kSamples
  +:+ " numeros entre " +:+ pretty kMin +:+ " y " +:+ pretty kMax +:+ "):" +:+ nl.

Definition print_row (cout : string) (row : Z * Z) : string :=
  let '(id, total) := row in
  cout +:+ "  Hilo #" +:+ pretty id +:+ " -> total = " +:+ pretty total +:+ nl.

Definition print_best (cout : string) (best : Z * Z) : string :=
  let '(best_id, best_total) := best in
  cout +:+ nl +:+ "El hilo con mayor puntaje es el #" +:+ pretty best_id
  +:+ " con " +:+ pretty best_total +:+ " puntos." +:+ nl.

(** [int main()]: the text written and the exit code.  [Throw] is an
    exception that leaves [main]; [None] is the undefined dereference in
    [best()]. *)
Definition main `{StdLib} (ents : nat → Entropy) : result (option (string * Z)) :=
  coord ← SumCoordinator.new kThreads kSamples kMin kMax;
  let coord := SumCoordinator.run_all ents coord in
  let rows := SumCoordinator.summaries coord in
  let cout := print_header in
  let cout := foldl print_row cout rows in
  Ok (best ← SumCoordinator.best coord;
      let cout := print_best cout best in
      Some (cout, 0)).

(** ** A small instance of the library, to run the model

    A linear congruential engine stands in for the Mersenne twister; the
    distribution reduces its output into the interval. *)
Definition lcg_next (e : Z) : Z := (e * 1103515245 + 12345) mod 2 ^ 31.

Definition lcg_lib : StdLib := {|
  mt19937 := Z;
  mt19937_seed := foldr (λ w s, (s * 31 + w) mod 2 ^ 32) 5489;
  uniform_int_distribution := λ low high e,
    (low + lcg_next e mod (high - low + 1), lcg_next e);
  vector_max_size := (2 ^ 63 - 1) / 24;
|}.

Definition ent0 : Entropy :=
  {| rd_first := 2463534242; clock_count := 1761800000123456789;
     rd_second := 88172645 |}.

(** The exact sum of a list of integers. *)
Definition Zsum (l : list Z) : Z := foldr Z.add 0 l.

(** The positions hold the ids [0], [1], ... in this order: what the
    constructor establishes and [run_all] keeps. *)
Definition ids_in_order (c : SumCoordinator.t) : Prop :=
  SumTask.id <$> SumCoordinator.tasks_ c
  = seqZ 0 (Z.of_nat (length (SumCoordinator.tasks_ c))).

(** Every field of a [Config] is an [int]. *)
Definition int_config (cfg : SumTask.Config.t) : Prop :=
  is_int (SumTask.Config.id cfg) ∧ is_int (SumTask.Config.samples cfg)
  ∧ is_int (SumTask.Config.min_val cfg) ∧ is_int (SumTask.Config.max_val cfg).

(** The draws of [operator()] are defined: the interval is not empty, or
    no value is drawn.  ([std::uniform_int_distribution] with
    [low > high] has no defined behaviour.) *)
Definition draws_defined (cfg : SumTask.Config.t) : Prop :=
  SumTask.Config.min_val cfg <= SumTask.Config.max_val cfg
  ∨ SumTask.Config.samples cfg <= 0.

(** The task the constructor creates for the id [i]. *)
Definition fresh_task (samples_per_thread minv maxv i : Z) : SumTask.t :=
  SumTask.new {| SumTask.Config.id := i; SumTask.Config.samples := samples_per_thread;
                 SumTask.Config.min_val := minv; SumTask.Config.max_val := maxv |}.

(** A coordinator after a run in which two workers tie for the largest
    sum. *)
Definition tied : SumCoordinator.t :=
  {| SumCoordinator.tasks_ :=
       [ {| SumTask.cfg_ := SumTask.cfg_ (fresh_task 3 1 5 0); SumTask.result_ := 6 |};
         {| SumTask.cfg_ := SumTask.cfg_ (fresh_task 3 1 5 1); SumTask.result_ := 13 |};
         {| SumTask.cfg_ := SumTask.cfg_ (fresh_task 3 1 5 2); SumTask.result_ := 13 |};
         {| SumTask.cfg_ := SumTask.cfg_ (fresh_task 3 1 5 3); SumTask.result_ := 9 |} ];
     SumCoordinator.threads_ :=
       [Thread 0 false; Thread 1 false; Thread 2 false; Thread 3 false] |}.

(** * Properties *)

(** ** Loops *)

Lemma seqZ_first (m n : Z) :
  0 < n → seqZ m n = m :: seqZ (m + 1) (n - 1).
Proof.
  intros Hn. replace (m + 1) with (Z.succ m) by lia.
  replace (n - 1) with (Z.pred n) by lia. by apply seqZ_cons.
Qed.

(** A loop that appends one element per turn builds the image of the
    range of its counter. *)
Lemma for_iter_push {A : Type} (g : Z → A) (k : nat) (i : Z) (v : list A) :
  for_iter k i (λ j out, out ++ [g j]) v = v ++ (g <$> seqZ i (Z.of_nat k)).
Proof.
  revert i v. induction k as [|k IH]; intros i v.
  - simpl. by rewrite app_nil_r.
  - cbn [for_iter]. rewrite IH, (seqZ_first i (Z.of_nat (S k))) by lia.
    rewrite fmap_cons, <- app_assoc. simpl.
    do 4 f_equal. lia.
Qed.

Lemma for_range_push {A : Type} (g : Z → A) (n : Z) (v : list A) :
  for_range 0 n (λ j out, out ++ [g j]) v = v ++ (g <$> seqZ 0 n).
Proof.
  unfold for_range. rewrite for_iter_push. do 2 f_equal.
  destruct (Z.le_gt_cases n 0) as [Hn|Hn].
  - replace (Z.to_nat (n - 0)) with O by lia. simpl.
    unfold seqZ. by replace (Z.to_nat n) with O by lia.
  - f_equal. lia.
Qed.

Lemma for_range_none {St : Type} (lo hi : Z) (body : Z → St → St) (s : St) :
  hi <= lo → for_range lo hi body s = s.
Proof.
  intros Hle. unfold for_range. by replace (Z.to_nat (hi - lo)) with O by lia.
Qed.

Lemma foldl_push {A B : Type} (g : A → B) (l : list A) (out : list B) :
  foldl (λ out x, out ++ [g x]) out l = out ++ (g <$> l).
Proof.
  revert out. induction l as [|x l IH]; intros out; simpl.
  - by rewrite app_nil_r.
  - by rewrite IH, <- app_assoc.
Qed.

(** ** The sample library meets the contracts *)

Lemma lcg_uniform_in_range : uniform_in_range lcg_lib.
Proof.
  intros low high e Hle. simpl.
  pose proof (Z.mod_pos_bound (lcg_next e) (high - low + 1)). lia.
Qed.

Lemma lcg_max_size_64 : max_size_64 lcg_lib.
Proof. unfold max_size_64, INT_MAX. by vm_compute. Qed.

Section Properties.
Context `{L : StdLib}.

(** ** The constructor *)

Lemma new_ok (thread_count samples_per_thread minv maxv : Z) :
  max_size_64 L → is_int thread_count → 0 <= thread_count →
  SumCoordinator.new thread_count samples_per_thread minv maxv
  = Ok {| SumCoordinator.tasks_ :=
            fresh_task samples_per_thread minv maxv <$> seqZ 0 thread_count;
          SumCoordinator.threads_ := [] |}.
Proof.
  intros [Hlo Hhi] [_ Hint] Hnn.
  unfold SumCoordinator.new, reserve, to_size_t.
  rewrite Z.mod_small by (unfold INT_MAX in *; lia).
  destruct (Z.ltb_spec vector_max_size thread_count) as [Hlt|_]; [lia|].
  simpl. by rewrite for_range_push.
Qed.

Lemma new_throws (thread_count samples_per_thread minv maxv : Z) :
  max_size_64 L → is_int thread_count → thread_count < 0 →
  SumCoordinator.new thread_count samples_per_thread minv maxv
  = Throw length_error.
Proof.
  intros [Hlo Hhi] [Hint _] Hneg.
  unfold SumCoordinator.new, reserve, to_size_t.
  assert (thread_count mod 2 ^ 64 = thread_count + 2 ^ 64) as ->.
  { symmetry. apply (Z.mod_unique_pos _ _ (-1)); unfold INT_MIN in *; lia. }
  destruct (Z.ltb_spec vector_max_size (thread_count + 2 ^ 64)) as [_|Hge];
    [done|unfold INT_MIN in *; lia].
Qed.

Lemma summaries_fmap (c : SumCoordinator.t) :
  SumCoordinator.summaries c
  = (λ task, (SumTask.id task, SumTask.result task))
      <$> SumCoordinator.tasks_ c.
Proof. unfold SumCoordinator.summaries. by rewrite foldl_push. Qed.

(** ** run_all *)

Lemma spawn_each_spec (i : nat) (tasks : list SumTask.t) (threads : list thread) :
  SumCoordinator.spawn_each i tasks threads
  = threads ++ ((λ j, Thread j true) <$> seq i (length tasks)).
Proof.
  revert i threads. induction tasks as [|task tasks IH]; intros i threads; simpl.
  - by rewrite app_nil_r.
  - by rewrite IH, <- app_assoc.
Qed.

Lemma call_cfg (ent : Entropy) (task : SumTask.t) :
  SumTask.cfg_ (SumTask.call ent task) = SumTask.cfg_ task.
Proof. unfold SumTask.call. by destruct (for_range _ _ _ _). Qed.

Lemma join_each_lengths (ents : nat → Entropy) (threads : list thread)
    (tasks : list SumTask.t) :
  length (SumCoordinator.join_each ents threads tasks).1 = length threads
  ∧ length (SumCoordinator.join_each ents threads tasks).2 = length tasks.
Proof.
  revert tasks. induction threads as [|th threads IH]; intros tasks; [done|].
  cbn [SumCoordinator.join_each].
  destruct (joinable th); unfold SumCoordinator.join;
    match goal with
    | |- context [SumCoordinator.join_each ents threads ?ts] =>
        destruct (IH ts) as [IH1 IH2];
        destruct (SumCoordinator.join_each ents threads ts) as [ths' ts']
    end; simpl in *; rewrite ?length_alter in IH2; auto.
Qed.

(** Joining threads never touches the configuration of a task. *)
Lemma join_each_cfg (ents : nat → Entropy) (threads : list thread)
    (tasks : list SumTask.t) :
  SumTask.cfg_ <$> (SumCoordinator.join_each ents threads tasks).2
  = SumTask.cfg_ <$> tasks.
Proof.
  revert tasks. induction threads as [|th threads IH]; intros tasks; [done|].
  cbn [SumCoordinator.join_each].
  destruct (joinable th); unfold SumCoordinator.join;
    match goal with
    | |- context [SumCoordinator.join_each ents threads ?ts] =>
        specialize (IH ts);
        destruct (SumCoordinator.join_each ents threads ts) as [ths' ts']
    end; simpl in *; [|done].
  rewrite IH. apply list_eq; intros j.
  rewrite !list_lookup_fmap, list_lookup_alter.
  case_decide; [subst|done].
  destruct (tasks !! target th); simpl; [|done]. by rewrite call_cfg.
Qed.

(** Joining the threads started on the positions [i], ..., [i + n - 1]
    runs each of these tasks once and leaves the others alone. *)
Lemma join_each_spawned (ents : nat → Entropy) (n i j : nat)
    (tasks : list SumTask.t) :
  (SumCoordinator.join_each ents ((λ p, Thread p true) <$> seq i n) tasks).2 !! j
  = if decide (i ≤ j < i + n)%nat
    then SumTask.call (ents j) <$> tasks !! j
    else tasks !! j.
Proof.
  revert i tasks. induction n as [|n IH]; intros i tasks.
  - simpl. case_decide; [lia|done].
  - cbn [seq fmap list_fmap SumCoordinator.join_each joinable].
    unfold SumCoordinator.join. cbn [target].
    specialize (IH (S i) (alter (SumTask.call (ents i)) i tasks)).
    change (list_fmap nat thread (λ p, Thread p true) (seq (S i) n))
      with ((λ p, Thread p true) <$> seq (S i) n).
    destruct (SumCoordinator.join_each ents _ _) as [ths' ts']. simpl in *.
    rewrite IH, list_lookup_alter.
    repeat case_decide; subst; try lia; done.
Qed.

Lemma run_all_tasks (ents : nat → Entropy) (c : SumCoordinator.t) :
  SumCoordinator.threads_ c = [] →
  SumCoordinator.tasks_ (SumCoordinator.run_all ents c)
  = imap (λ i, SumTask.call (ents i)) (SumCoordinator.tasks_ c).
Proof.
  intros Hnone. unfold SumCoordinator.run_all.
  rewrite spawn_each_spec, Hnone, app_nil_l.
  pose proof (λ j, join_each_spawned ents
                     (length (SumCoordinator.tasks_ c)) 0 j
                     (SumCoordinator.tasks_ c)) as Hspawned.
  destruct (SumCoordinator.join_each ents _ _) as [ths' ts']. simpl in *.
  apply list_eq; intros j. rewrite Hspawned, list_lookup_imap.
  case_decide as Hj; [done|].
  rewrite (proj2 (lookup_ge_None _ j)) by lia. done.
Qed.

Lemma run_all_sizes (ents : nat → Entropy) (c : SumCoordinator.t) :
  length (SumCoordinator.tasks_ (SumCoordinator.run_all ents c))
  = length (SumCoordinator.tasks_ c)
  ∧ length (SumCoordinator.threads_ (SumCoordinator.run_all ents c))
    = (length (SumCoordinator.threads_ c)
       + length (SumCoordinator.tasks_ c))%nat.
Proof.
  unfold SumCoordinator.run_all.
  match goal with
  | |- context [SumCoordinator.join_each ents ?ths ?ts] =>
      destruct (join_each_lengths ents ths ts) as [H1 H2];
      destruct (SumCoordinator.join_each ents ths ts) as [ths' ts']
  end. simpl in *.
  rewrite spawn_each_spec, length_app, length_fmap, length_seq in H1. done.
Qed.

(** After the second loop no handle is joinable. *)
Lemma join_each_joined (ents : nat → Entropy) (threads : list thread)
    (tasks : list SumTask.t) :
  Forall (λ th, joinable th = false)
         (SumCoordinator.join_each ents threads tasks).1.
Proof.
  revert tasks. induction threads as [|th threads IH]; intros tasks;
    [by constructor|].
  cbn [SumCoordinator.join_each].
  destruct (joinable th) eqn:Hj; unfold SumCoordinator.join;
    match goal with
    | |- context [SumCoordinator.join_each ents threads ?ts] =>
        specialize (IH ts);
        destruct (SumCoordinator.join_each ents threads ts) as [ths' ts']
    end; by constructor.
Qed.

Lemma run_all_joined (ents : nat → Entropy) (c : SumCoordinator.t) :
  Forall (λ th, joinable th = false)
         (SumCoordinator.threads_ (SumCoordinator.run_all ents c)).
Proof.
  unfold SumCoordinator.run_all.
  match goal with
  | |- context [SumCoordinator.join_each ents ?ths ?ts] =>
      pose proof (join_each_joined ents ths ts) as Hjoined;
      destruct (SumCoordinator.join_each ents ths ts) as [ths' ts']
  end. done.
Qed.

Lemma run_all_cfg (ents : nat → Entropy) (c : SumCoordinator.t) :
  SumTask.cfg_ <$> SumCoordinator.tasks_ (SumCoordinator.run_all ents c)
  = SumTask.cfg_ <$> SumCoordinator.tasks_ c.
Proof.
  unfold SumCoordinator.run_all.
  match goal with
  | |- context [SumCoordinator.join_each ents ?ths ?ts] =>
      pose proof (join_each_cfg ents ths ts) as Hcfg;
      destruct (SumCoordinator.join_each ents ths ts) as [ths' ts']
  end. done.
Qed.

(** ** operator() *)

Lemma to_uint64_range (x : Z) : 0 <= to_uint64 x < 2 ^ 64.
Proof. unfold to_uint64. apply Z.mod_pos_bound. lia. Qed.

(** The accumulator holds the sum of the values drawn, reduced modulo
    [2^64]. *)
Lemma loop_sum (cfg : SumTask.Config.t) (k : nat) (i acc : Z) (rng : ThreadRNG.t) :
  0 <= acc < 2 ^ 64 →
  (for_iter k i (λ _, SumTask.step cfg) (acc, rng)).1
  = to_uint64 (acc + Zsum (SumTask.drawn k cfg rng)).
Proof.
  revert i acc rng. induction k as [|k IH]; intros i acc rng Hacc.
  - simpl. unfold to_uint64. by rewrite Z.add_0_r, Z.mod_small.
  - cbn [for_iter SumTask.drawn]. unfold SumTask.step at 2.
    destruct (ThreadRNG.uniform_int rng _ _) as [v rng'].
    rewrite IH by apply to_uint64_range.
    unfold to_uint64. cbn [Zsum foldr]. fold (Zsum (SumTask.drawn k cfg rng')).
    rewrite Zplus_mod_idemp_l.
    replace (acc + v mod 2 ^ 64 + Zsum (SumTask.drawn k cfg rng'))
      with (v mod 2 ^ 64 + (acc + Zsum (SumTask.drawn k cfg rng'))) by lia.
    rewrite Zplus_mod_idemp_l. f_equal. lia.
Qed.

Lemma call_result (ent : Entropy) (task : SumTask.t) :
  SumTask.result (SumTask.call ent task)
  = to_uint64 (Zsum (SumTask.drawn_by ent task)).
Proof.
  unfold SumTask.call, SumTask.drawn_by, for_range. rewrite Z.sub_0_r.
  match goal with
  | |- context [for_iter ?k ?i ?b (?a, ?r)] =>
      pose proof (loop_sum (SumTask.cfg_ task) k i a r) as Hsum;
      destruct (for_iter k i b (a, r)) as [acc rng']
  end.
  simpl in *. rewrite Hsum by lia. done.
Qed.

Lemma drawn_length (k : nat) (cfg : SumTask.Config.t) (rng : ThreadRNG.t) :
  length (SumTask.drawn k cfg rng) = k.
Proof.
  revert rng. induction k as [|k IH]; intros rng; [done|]. simpl.
  destruct (ThreadRNG.uniform_int rng _ _) as [v rng']. simpl. by rewrite IH.
Qed.

Lemma drawn_in_range (k : nat) (cfg : SumTask.Config.t) (rng : ThreadRNG.t) :
  uniform_in_range L →
  SumTask.Config.min_val cfg <= SumTask.Config.max_val cfg →
  Forall (λ v, SumTask.Config.min_val cfg <= v <= SumTask.Config.max_val cfg)
         (SumTask.drawn k cfg rng).
Proof.
  intros Hdist Hle. revert rng. induction k as [|k IH]; intros rng; simpl.
  - constructor.
  - pose proof (Hdist _ _ (ThreadRNG.eng_ rng) Hle) as Hv.
    unfold ThreadRNG.uniform_int.
    destruct (uniform_int_distribution _ _ _) as [v e]. by constructor.
Qed.

Lemma Zsum_bounds (lo hi : Z) (l : list Z) :
  Forall (λ v, lo <= v <= hi) l →
  Z.of_nat (length l) * lo <= Zsum l <= Z.of_nat (length l) * hi.
Proof.
  induction 1 as [|v l Hv _ IH]; [simpl; lia|].
  cbn [Zsum foldr length]. fold (Zsum l). lia.
Qed.

(** The exact sum of the values drawn lies between [samples * min_val]
    and [samples * max_val]. *)
Lemma drawn_by_bounds (ent : Entropy) (task : SumTask.t) :
  uniform_in_range L →
  SumTask.Config.min_val (SumTask.cfg_ task) <= SumTask.Config.max_val (SumTask.cfg_ task) →
  0 <= SumTask.Config.samples (SumTask.cfg_ task) →
  SumTask.Config.min_val (SumTask.cfg_ task) * SumTask.Config.samples (SumTask.cfg_ task)
  <= Zsum (SumTask.drawn_by ent task)
  <= SumTask.Config.max_val (SumTask.cfg_ task) * SumTask.Config.samples (SumTask.cfg_ task).
Proof.
  intros Hdist Hle Hnn.
  pose proof (Zsum_bounds _ _ _
    (drawn_in_range (Z.to_nat (SumTask.Config.samples (SumTask.cfg_ task)))
       (SumTask.cfg_ task)
       (ThreadRNG.new ent (to_unsigned (SumTask.Config.id (SumTask.cfg_ task))))
       Hdist Hle)) as Hb.
  rewrite drawn_length, Z2Nat.id in Hb by done. unfold SumTask.drawn_by. lia.
Qed.

(** X12. With [min_val = max_val] every library that meets the contract
    stores the same value, whatever it draws from: the product, reduced
    modulo [2^64]. *)
Lemma constant_range_result (ent : Entropy) (task : SumTask.t) :
  uniform_in_range L →
  SumTask.Config.min_val (SumTask.cfg_ task)
  = SumTask.Config.max_val (SumTask.cfg_ task) →
  0 <= SumTask.Config.samples (SumTask.cfg_ task) →
  SumTask.result (SumTask.call ent task)
  = to_uint64 (SumTask.Config.min_val (SumTask.cfg_ task)
               * SumTask.Config.samples (SumTask.cfg_ task)).
Proof.
  intros Hdist Heq Hnn.
  pose proof (drawn_by_bounds ent task Hdist ltac:(lia) Hnn) as Hsum.
  rewrite call_result. f_equal. rewrite <- Heq in Hsum. lia.
Qed.

(** ** max_element *)

Section MaxElement.
Context {A : Type} (key : A → Z).
Let comp (a b : A) : bool := key a <? key b.

Lemma max_element_scan_spec (v pre rest : list A) (largest_val : A)
    (largest : nat) :
  v = pre ++ rest →
  v !! largest = Some largest_val →
  (largest < length pre)%nat →
  (∀ j x, (j < length pre)%nat → v !! j = Some x → key x <= key largest_val) →
  (∀ j x, (j < largest)%nat → v !! j = Some x → key x < key largest_val) →
  ∃ m, v !! max_element_scan comp rest (length pre) largest_val largest = Some m
       ∧ (∀ j x, v !! j = Some x → key x <= key m)
       ∧ (∀ j x, (j < max_element_scan comp rest (length pre) largest_val largest)%nat →
                 v !! j = Some x → key x < key m).
Proof.
  revert pre largest_val largest.
  induction rest as [|y rest IH]; intros pre largest_val largest Hv Hl Hlt Hle Hbefore.
  - simpl. exists largest_val. split_and!; [done| |done].
    intros j x Hj. apply (Hle j x); [|done].
    apply lookup_lt_Some in Hj. rewrite Hv, app_nil_r in Hj. done.
  - cbn [max_element_scan].
    assert (v !! length pre = Some y) as Hy.
    { rewrite Hv. by rewrite list_lookup_middle. }
    assert (v = (pre ++ [y]) ++ rest) as Hv' by (by rewrite <- app_assoc).
    assert (length (pre ++ [y]) = S (length pre)) as Hlen
      by (rewrite length_app; simpl; lia).
    destruct (comp largest_val y) eqn:Hc; unfold comp in Hc;
      [apply Z.ltb_lt in Hc|apply Z.ltb_ge in Hc].
    + specialize (IH (pre ++ [y]) y (length pre) Hv' Hy).
      rewrite Hlen in IH. apply IH; [lia| |].
      * intros j x Hj Hx.
        destruct (decide (j = length pre)) as [->|Hne]; [naive_solver lia|].
        assert (key x <= key largest_val) by (apply (Hle j x); [lia|done]). lia.
      * intros j x Hj Hx.
        assert (key x <= key largest_val) by (apply (Hle j x); [lia|done]). lia.
    + specialize (IH (pre ++ [y]) largest_val largest Hv' Hl).
      rewrite Hlen in IH. apply IH; [lia| |done].
      intros j x Hj Hx.
      destruct (decide (j = length pre)) as [->|Hne]; [naive_solver lia|].
      apply (Hle j x); [lia|done].
Qed.

(** On a vector that is not empty, [max_element] points to an element
    that no element exceeds and that every earlier element is
    strictly below. *)
Lemma max_element_spec (v : list A) :
  v ≠ [] →
  ∃ m, v !! max_element comp v = Some m
       ∧ (∀ j x, v !! j = Some x → key x <= key m)
       ∧ (∀ j x, (j < max_element comp v)%nat → v !! j = Some x → key x < key m).
Proof.
  destruct v as [|x rest]; [done|]. intros _. unfold max_element.
  apply (max_element_scan_spec (x :: rest) [x] rest x 0%nat);
    [done|done|simpl; lia| |intros; lia].
  intros [|j] y Hj Hy; [naive_solver lia|simpl in Hj; lia].
Qed.

Lemma max_element_end (v : list A) :
  max_element comp v = length v ↔ v = [].
Proof.
  split; [|by intros ->].
  intros Hend. destruct (decide (v = [])) as [|Hne]; [done|].
  destruct (max_element_spec v Hne) as (m & Hm & _).
  apply lookup_lt_Some in Hm. lia.
Qed.
End MaxElement.

(** ** The ids of a coordinator *)

Lemma new_inv (thread_count samples_per_thread minv maxv : Z)
    (c : SumCoordinator.t) :
  SumCoordinator.new thread_count samples_per_thread minv maxv = Ok c →
  c = {| SumCoordinator.tasks_ :=
           fresh_task samples_per_thread minv maxv <$> seqZ 0 thread_count;
         SumCoordinator.threads_ := [] |}.
Proof.
  unfold SumCoordinator.new, reserve.
  destruct (vector_max_size <? to_size_t thread_count); [done|].
  simpl. rewrite for_range_push. by intros [= <-].
Qed.

Lemma fresh_ids (samples_per_thread minv maxv : Z) (ids : list Z) :
  SumTask.id <$> (fresh_task samples_per_thread minv maxv <$> ids) = ids.
Proof.
  rewrite <- list_fmap_compose. rewrite <- (list_fmap_id ids) at 2.
  by apply list_fmap_ext.
Qed.

Lemma new_ids_in_order (thread_count samples_per_thread minv maxv : Z)
    (c : SumCoordinator.t) :
  SumCoordinator.new thread_count samples_per_thread minv maxv = Ok c →
  ids_in_order c.
Proof.
  intros ->%new_inv. unfold ids_in_order. simpl.
  rewrite fresh_ids, length_fmap, length_seqZ.
  destruct (Z.le_gt_cases 0 thread_count).
  - by rewrite Z2Nat.id.
  - unfold seqZ. by replace (Z.to_nat thread_count) with O by lia.
Qed.

Lemma run_all_ids (ents : nat → Entropy) (c : SumCoordinator.t) :
  SumTask.id <$> SumCoordinator.tasks_ (SumCoordinator.run_all ents c)
  = SumTask.id <$> SumCoordinator.tasks_ c.
Proof.
  change SumTask.id with (SumTask.Config.id ∘ SumTask.cfg_).
  by rewrite !list_fmap_compose, run_all_cfg.
Qed.

Lemma run_all_ids_in_order (ents : nat → Entropy) (c : SumCoordinator.t) :
  ids_in_order c → ids_in_order (SumCoordinator.run_all ents c).
Proof.
  unfold ids_in_order. intros Hc.
  by rewrite run_all_ids, (proj1 (run_all_sizes ents c)).
Qed.

End Properties.

(** * The claims of the specification *)

(** ** best() *)

(** C1. On a coordinator that holds at least one task, with any results,
    [best()] returns the id and the result of one of its tasks; no task
    has a larger result, and among the tasks with that result the one
    returned has the smallest id. *)
Theorem best_is_first_max (c : SumCoordinator.t) :
  ids_in_order c →
  SumCoordinator.tasks_ c ≠ [] →
  ∃ task,
    SumCoordinator.best c = Some (SumTask.id task, SumTask.result task)
    ∧ task ∈ SumCoordinator.tasks_ c
    ∧ (∀ u, u ∈ SumCoordinator.tasks_ c → SumTask.result u <= SumTask.result task)
    ∧ (∀ u, u ∈ SumCoordinator.tasks_ c →
            SumTask.result u = SumTask.result task →
            SumTask.id task <= SumTask.id u).
Proof.
  intros Hids Hne.
  destruct (max_element_spec SumTask.result (SumCoordinator.tasks_ c) Hne)
    as (task & Hit & Hmax & Hfirst).
  fold (SumCoordinator.best_it c) in Hit, Hfirst.
  assert (∀ j u, SumCoordinator.tasks_ c !! j = Some u →
                 SumTask.id u = Z.of_nat j) as Hid.
  { intros j u Hu.
    assert ((SumTask.id <$> SumCoordinator.tasks_ c) !! j
            = Some (SumTask.id u)) as Hj
      by (by rewrite list_lookup_fmap, Hu).
    rewrite Hids in Hj. apply lookup_seqZ in Hj. lia. }
  exists task. split_and!.
  - unfold SumCoordinator.best. by rewrite Hit.
  - by eapply list_elem_of_lookup_2.
  - intros u [j Hu]%list_elem_of_lookup. by eapply Hmax.
  - intros u [j Hu]%list_elem_of_lookup Heq.
    rewrite (Hid _ _ Hit), (Hid _ _ Hu).
    destruct (decide (j < SumCoordinator.best_it c)%nat) as [Hlt|Hge]; [|lia].
    specialize (Hfirst j u Hlt Hu). lia.
Qed.

Lemma best_is_first_max_witness :
  ids_in_order tied ∧ SumCoordinator.tasks_ tied ≠ []
  ∧ SumCoordinator.best tied = Some (1, 13)
  ∧ ∃ task,
      SumCoordinator.best tied = Some (SumTask.id task, SumTask.result task)
      ∧ task ∈ SumCoordinator.tasks_ tied
      ∧ (∀ u, u ∈ SumCoordinator.tasks_ tied →
              SumTask.result u <= SumTask.result task)
      ∧ (∀ u, u ∈ SumCoordinator.tasks_ tied →
              SumTask.result u = SumTask.result task →
              SumTask.id task <= SumTask.id u).
Proof.
  split_and!; [reflexivity|discriminate|reflexivity|].
  apply (best_is_first_max tied); [reflexivity|discriminate].
Defined.

(** C5. [best()] dereferences the iterator that [max_element] returns.
    With at least one task the iterator points to an element (it is not
    the end iterator) and [best()] has a value; with no task it is the end
    iterator, and the dereference is undefined. *)
Theorem best_defined_iff_nonempty (c : SumCoordinator.t) :
  (SumCoordinator.tasks_ c ≠ [] →
     (SumCoordinator.best_it c < length (SumCoordinator.tasks_ c))%nat
     ∧ is_Some (SumCoordinator.best c))
  ∧ (SumCoordinator.tasks_ c = [] →
     SumCoordinator.best_it c = length (SumCoordinator.tasks_ c)
     ∧ SumCoordinator.best c = None).
Proof.
  split.
  - intros Hne.
    destruct (max_element_spec SumTask.result (SumCoordinator.tasks_ c) Hne)
      as (task & Hit & _).
    fold (SumCoordinator.best_it c) in Hit. split.
    + by eapply lookup_lt_Some.
    + unfold SumCoordinator.best. rewrite Hit. by eexists.
  - intros Hnil. unfold SumCoordinator.best, SumCoordinator.best_it.
    by rewrite Hnil.
Qed.

Lemma best_defined_iff_nonempty_witness :
  ((SumCoordinator.best_it tied < 4)%nat ∧ is_Some (SumCoordinator.best tied))
  ∧ SumCoordinator.best_it (SumCoordinator.Make [] []) = 0%nat
  ∧ SumCoordinator.best (SumCoordinator.Make [] []) = None.
Proof.
  split.
  - apply (proj1 (best_defined_iff_nonempty tied)). discriminate.
  - apply (proj2 (best_defined_iff_nonempty (SumCoordinator.Make [] []))).
    reflexivity.
Defined.

Section Claims.
Context `{L : StdLib}.

(** ** operator() *)

(** Sums of [int] samples stay far below [2^64]. *)
Lemma int_product_small (n v : Z) :
  is_int n → is_int v → 0 <= n → 0 <= v → v * n < 2 ^ 64.
Proof. unfold is_int, INT_MIN, INT_MAX. intros. nia. Qed.

(** C2, amended. For [min_val <= max_val] and [samples >= 0] the stored
    result is the reduction modulo [2^64] of an exact sum between
    [min_val * samples] and [max_val * samples]; when moreover
    [min_val >= 0] nothing is reduced and the result itself lies between
    the two products. *)
Theorem result_bounds (ent : Entropy) (task : SumTask.t) :
  uniform_in_range L →
  int_config (SumTask.cfg_ task) →
  SumTask.Config.min_val (SumTask.cfg_ task) <= SumTask.Config.max_val (SumTask.cfg_ task) →
  0 <= SumTask.Config.samples (SumTask.cfg_ task) →
  (∃ s, SumTask.Config.min_val (SumTask.cfg_ task) * SumTask.Config.samples (SumTask.cfg_ task)
        <= s
        <= SumTask.Config.max_val (SumTask.cfg_ task) * SumTask.Config.samples (SumTask.cfg_ task)
        ∧ SumTask.result (SumTask.call ent task) = to_uint64 s)
  ∧ (0 <= SumTask.Config.min_val (SumTask.cfg_ task) →
     SumTask.Config.min_val (SumTask.cfg_ task) * SumTask.Config.samples (SumTask.cfg_ task)
     <= SumTask.result (SumTask.call ent task)
     <= SumTask.Config.max_val (SumTask.cfg_ task) * SumTask.Config.samples (SumTask.cfg_ task)).
Proof.
  intros Hdist (_ & Hn & Hmin & Hmax) Hle Hnn.
  pose proof (drawn_by_bounds ent task Hdist Hle Hnn) as Hsum.
  split.
  - exists (Zsum (SumTask.drawn_by ent task)). split; [done|apply call_result].
  - intros Hpos. rewrite call_result. unfold to_uint64.
    pose proof (int_product_small _ _ Hn Hmax Hnn ltac:(lia)).
    rewrite Z.mod_small; nia.
Qed.

(** C6, amended. For [0 <= min_val <= max_val] and [samples >= 0] the
    accumulator never wraps: after every turn of the loop it is the
    exact sum of the values drawn so far, and the stored result is the
    exact sum of all of them. *)
Theorem no_wrap_nonneg (ent : Entropy) (task : SumTask.t) :
  uniform_in_range L →
  int_config (SumTask.cfg_ task) →
  0 <= SumTask.Config.min_val (SumTask.cfg_ task) →
  SumTask.Config.min_val (SumTask.cfg_ task) <= SumTask.Config.max_val (SumTask.cfg_ task) →
  0 <= SumTask.Config.samples (SumTask.cfg_ task) →
  SumTask.result (SumTask.call ent task) = Zsum (SumTask.drawn_by ent task)
  ∧ ∀ k : nat,
      (k ≤ Z.to_nat (SumTask.Config.samples (SumTask.cfg_ task)))%nat →
      let rng := ThreadRNG.new ent (to_unsigned (SumTask.Config.id (SumTask.cfg_ task))) in
      (for_iter k 0 (λ _, SumTask.step (SumTask.cfg_ task)) (0, rng)).1
      = Zsum (SumTask.drawn k (SumTask.cfg_ task) rng).
Proof.
  intros Hdist (_ & Hn & Hmin & Hmax) Hpos Hle Hnn.
  pose proof (int_product_small _ _ Hn Hmax Hnn ltac:(lia)) as Hsmall.
  split.
  - pose proof (drawn_by_bounds ent task Hdist Hle Hnn) as Hsum.
    rewrite call_result. unfold to_uint64. rewrite Z.mod_small; [done|nia].
  - intros k Hk rng. rewrite loop_sum by lia.
    pose proof (Zsum_bounds _ _ _
      (drawn_in_range k (SumTask.cfg_ task) rng Hdist Hle)) as Hb.
    rewrite drawn_length in Hb.
    unfold to_uint64. rewrite Z.add_0_l, Z.mod_small; [done|nia].
Qed.

(** C10. With [samples <= 0], negative counts included, the loop of
    [operator()] makes no turn, draws nothing, and stores [0]; the call
    returns as any other. *)
Theorem no_samples_result_zero (ent : Entropy) (task : SumTask.t) :
  SumTask.Config.samples (SumTask.cfg_ task) <= 0 →
  (∀ st, for_range 0 (SumTask.Config.samples (SumTask.cfg_ task))
           (λ _, SumTask.step (SumTask.cfg_ task)) st = st)
  ∧ SumTask.drawn_by ent task = []
  ∧ SumTask.call ent task
    = {| SumTask.cfg_ := SumTask.cfg_ task; SumTask.result_ := 0 |}.
Proof.
  intros Hle. split_and!.
  - intros st. by apply for_range_none.
  - unfold SumTask.drawn_by.
    by replace (Z.to_nat (SumTask.Config.samples (SumTask.cfg_ task))) with O by lia.
  - unfold SumTask.call. by rewrite for_range_none.
Qed.

(** ** The coordinator *)

(** C3. For [thread_count >= 0] and [minv <= maxv] the constructor
    returns a coordinator, and [summaries()] lists exactly
    [thread_count] pairs whose ids are [0, 1, ..., thread_count - 1] in
    this order, before [run_all()] as well as after it. *)
Theorem summaries_ids (thread_count samples_per_thread minv maxv : Z) :
  max_size_64 L →
  is_int thread_count →
  0 <= thread_count →
  minv <= maxv →
  ∃ c,
    SumCoordinator.new thread_count samples_per_thread minv maxv = Ok c
    ∧ (SumCoordinator.summaries c).*1 = seqZ 0 thread_count
    ∧ ∀ ents,
        (SumCoordinator.summaries (SumCoordinator.run_all ents c)).*1
        = seqZ 0 thread_count
        ∧ Z.of_nat (length (SumCoordinator.summaries
                              (SumCoordinator.run_all ents c)))
          = thread_count
        ∧ NoDup (SumCoordinator.summaries (SumCoordinator.run_all ents c)).*1.
Proof.
  intros Hmax Hint Hnn _. eexists. split; [by apply new_ok|].
  set (c := SumCoordinator.Make _ _).
  assert ((SumCoordinator.summaries c).*1 = seqZ 0 thread_count) as Hc.
  { rewrite summaries_fmap, <- list_fmap_compose. apply fresh_ids. }
  split; [done|]. intros ents.
  assert ((SumCoordinator.summaries (SumCoordinator.run_all ents c)).*1
          = seqZ 0 thread_count) as Hrun.
  { rewrite summaries_fmap, <- list_fmap_compose.
    change (fst ∘ _) with SumTask.id. rewrite run_all_ids.
    apply fresh_ids. }
  split_and!; [done| |].
  - rewrite <- (length_fmap fst), Hrun, length_seqZ. lia.
  - rewrite Hrun. apply NoDup_seqZ.
Qed.

(** C4, amended. A negative [thread_count] makes the constructor fail:
    [reserve] throws [length_error] before any task or thread exists.
    The bounds are not checked: a coordinator the constructor returns
    has [thread_count] tasks that hold [minv] and [maxv] as given, also
    when [minv > maxv], and no thread; and when the constructor throws,
    it throws the same with any other bounds. *)
Theorem new_checks_count_only (thread_count samples_per_thread minv maxv : Z) :
  max_size_64 L →
  is_int thread_count →
  (thread_count < 0 →
     SumCoordinator.new thread_count samples_per_thread minv maxv
     = Throw length_error)
  ∧ (∀ c,
       SumCoordinator.new thread_count samples_per_thread minv maxv = Ok c →
       Z.of_nat (length (SumCoordinator.tasks_ c)) = thread_count
       ∧ SumCoordinator.threads_ c = []
       ∧ Forall (λ task, SumTask.Config.min_val (SumTask.cfg_ task) = minv
                         ∧ SumTask.Config.max_val (SumTask.cfg_ task) = maxv)
                (SumCoordinator.tasks_ c))
  ∧ (∀ e minv' maxv',
       SumCoordinator.new thread_count samples_per_thread minv maxv = Throw e →
       SumCoordinator.new thread_count samples_per_thread minv' maxv' = Throw e).
Proof.
  intros Hmax Hint. split_and!.
  - intros Hn. by apply new_throws.
  - intros c Hc.
    destruct (Z.lt_ge_cases thread_count 0) as [Hneg|Hnn].
    { by rewrite new_throws in Hc. }
    apply new_inv in Hc as ->. simpl. split_and!.
    + rewrite length_fmap, length_seqZ. lia.
    + done.
    + by apply Forall_fmap, Forall_true.
  - intros e minv' maxv'. unfold SumCoordinator.new, reserve.
    by destruct (vector_max_size <? to_size_t thread_count).
Qed.

(** C8. For [thread_count >= 0], after the constructor and one call of
    [run_all()] the coordinator holds as many thread handles as tasks,
    and none of the handles is joinable any more. *)
Theorem run_all_sizes_equal (thread_count samples_per_thread minv maxv : Z)
    (ents : nat → Entropy) :
  max_size_64 L →
  is_int thread_count →
  0 <= thread_count →
  ∃ c,
    SumCoordinator.new thread_count samples_per_thread minv maxv = Ok c
    ∧ length (SumCoordinator.tasks_ (SumCoordinator.run_all ents c))
      = length (SumCoordinator.threads_ (SumCoordinator.run_all ents c))
    ∧ Z.of_nat (length (SumCoordinator.tasks_ (SumCoordinator.run_all ents c)))
      = thread_count
    ∧ Forall (λ th, joinable th = false)
             (SumCoordinator.threads_ (SumCoordinator.run_all ents c)).
Proof.
  intros Hmax Hint Hnn. eexists. split; [by apply new_ok|].
  set (c := SumCoordinator.Make _ _).
  destruct (run_all_sizes ents c) as [Htasks Hthreads].
  rewrite Hthreads, Htasks. simpl. rewrite length_fmap, length_seqZ.
  split_and!; [lia|lia|apply run_all_joined].
Qed.

(** C9. A task is constructed with the result [0], so on every
    coordinator the constructor returns, [summaries()] before
    [run_all()] is the list of the pairs [(id, 0)]. *)
Theorem fresh_results_zero :
  (∀ cfg, SumTask.result (SumTask.new cfg) = 0)
  ∧ ∀ thread_count samples_per_thread minv maxv c,
      SumCoordinator.new thread_count samples_per_thread minv maxv = Ok c →
      SumCoordinator.summaries c = (λ i, (i, 0)) <$> seqZ 0 thread_count.
Proof.
  split; [done|].
  intros thread_count samples_per_thread minv maxv c ->%new_inv.
  rewrite summaries_fmap. simpl. rewrite <- list_fmap_compose.
  by apply list_fmap_ext.
Qed.

(** C7. With [thread_count = 1], [samples_per_thread = 5] and
    [min_value = max_value = 7], whatever the random device, the clock
    and the engine deliver, worker 0 ends with the result [35] and
    [best()] returns [(0, 35)]. *)
Theorem constant_range_run (ents : nat → Entropy) :
  uniform_in_range L →
  max_size_64 L →
  ∃ c,
    SumCoordinator.new 1 5 7 7 = Ok c
    ∧ SumCoordinator.summaries (SumCoordinator.run_all ents c) = [(0, 35)]
    ∧ SumCoordinator.best (SumCoordinator.run_all ents c) = Some (0, 35).
Proof.
  intros Hdist Hmax. eexists. split.
  { apply new_ok; [done|by vm_compute|lia]. }
  set (c := SumCoordinator.Make _ _).
  assert (SumCoordinator.tasks_ (SumCoordinator.run_all ents c)
          = [SumTask.Make (SumTask.cfg_ (fresh_task 5 7 7 0)) 35]) as Hrun.
  { rewrite run_all_tasks by done. simpl.
    pose proof (call_cfg (ents 0%nat) (fresh_task 5 7 7 0)) as Hcfg.
    pose proof (call_result (ents 0%nat) (fresh_task 5 7 7 0)) as Hres.
    pose proof (drawn_by_bounds (ents 0%nat) (fresh_task 5 7 7 0) Hdist
                  ltac:(simpl; lia) ltac:(simpl; lia)) as Hsum.
    simpl in Hsum.
    replace (Zsum _) with 35 in Hres by lia.
    destruct (SumTask.call _ _) as [cfg res]. simpl in *. by subst. }
  split.
  - by rewrite summaries_fmap, Hrun.
  - unfold SumCoordinator.best, SumCoordinator.best_it. by rewrite Hrun.
Qed.

End Claims.

(** * The claims on concrete runs

    The statements above are instantiated with the sample library
    [lcg_lib] and evaluated. *)

Lemma int_config_fresh_4_1_10 : int_config (SumTask.cfg_ (fresh_task 4 1 10 0)).
Proof. repeat split; by vm_compute. Defined.

Lemma result_bounds_witness :
  uniform_in_range lcg_lib
  ∧ int_config (SumTask.cfg_ (fresh_task 4 1 10 0))
  ∧ SumTask.result (SumTask.call (H := lcg_lib) ent0 (fresh_task 4 1 10 0)) = 24
  ∧ 1 * 4
    <= SumTask.result (SumTask.call (H := lcg_lib) ent0 (fresh_task 4 1 10 0))
    <= 10 * 4.
Proof.
  split; [apply lcg_uniform_in_range|].
  split; [apply int_config_fresh_4_1_10|].
  split; [reflexivity|].
  refine (proj2 (result_bounds (L := lcg_lib) ent0 (fresh_task 4 1 10 0)
                   lcg_uniform_in_range int_config_fresh_4_1_10 _ _) _);
    simpl; lia.
Defined.

(** C2, as stated, fails on negative values: one sample from [-1 .. -1]
    is stored as [2^64 - 1], which is above [max_val * samples = -1].
    By [constant_range_result] the value stored is the same with every
    library that meets the contract. *)
Lemma result_above_bound_negative :
  SumTask.Config.min_val (SumTask.cfg_ (fresh_task 1 (-1) (-1) 0))
  <= SumTask.Config.max_val (SumTask.cfg_ (fresh_task 1 (-1) (-1) 0))
  ∧ 0 <= SumTask.Config.samples (SumTask.cfg_ (fresh_task 1 (-1) (-1) 0))
  ∧ SumTask.result (SumTask.call (H := lcg_lib) ent0 (fresh_task 1 (-1) (-1) 0))
    = 18446744073709551615
  ∧ ¬ (-1 * 1
       <= SumTask.result (SumTask.call (H := lcg_lib) ent0 (fresh_task 1 (-1) (-1) 0))
       <= -1 * 1).
Proof.
  split_and!; [simpl; lia|simpl; lia|reflexivity|].
  change (SumTask.result (SumTask.call (H := lcg_lib) ent0 (fresh_task 1 (-1) (-1) 0)))
    with 18446744073709551615.
  lia.
Qed.

Lemma no_wrap_nonneg_witness :
  SumTask.drawn_by (H := lcg_lib) ent0 (fresh_task 4 1 10 0) = [3; 10; 5; 6]
  ∧ SumTask.result (SumTask.call (H := lcg_lib) ent0 (fresh_task 4 1 10 0))
    = Zsum (SumTask.drawn_by (H := lcg_lib) ent0 (fresh_task 4 1 10 0)).
Proof.
  split; [reflexivity|].
  refine (proj1 (no_wrap_nonneg (L := lcg_lib) ent0 (fresh_task 4 1 10 0)
                   lcg_uniform_in_range int_config_fresh_4_1_10 _ _ _));
    simpl; lia.
Defined.

(** C6, as stated, fails on negative values: three samples from
    [-2 .. -2] have the exact sum [-6], and the accumulator holds
    [2^64 - 6] (again with every library that meets the contract). *)
Lemma negative_sum_wraps :
  SumTask.Config.min_val (SumTask.cfg_ (fresh_task 3 (-2) (-2) 0))
  <= SumTask.Config.max_val (SumTask.cfg_ (fresh_task 3 (-2) (-2) 0))
  ∧ 0 <= SumTask.Config.samples (SumTask.cfg_ (fresh_task 3 (-2) (-2) 0))
  ∧ Zsum (SumTask.drawn_by (H := lcg_lib) ent0 (fresh_task 3 (-2) (-2) 0)) = -6
  ∧ SumTask.result (SumTask.call (H := lcg_lib) ent0 (fresh_task 3 (-2) (-2) 0))
    = 18446744073709551610
  ∧ SumTask.result (SumTask.call (H := lcg_lib) ent0 (fresh_task 3 (-2) (-2) 0))
    ≠ Zsum (SumTask.drawn_by (H := lcg_lib) ent0 (fresh_task 3 (-2) (-2) 0)).
Proof. split_and!; [simpl; lia|simpl; lia|reflexivity|reflexivity|by vm_compute]. Qed.

Lemma no_samples_result_zero_witness :
  SumTask.Config.samples (SumTask.cfg_ (fresh_task (-3) 1 10 0)) <= 0
  ∧ SumTask.call (H := lcg_lib) ent0 (fresh_task (-3) 1 10 0)
    = {| SumTask.cfg_ := SumTask.cfg_ (fresh_task (-3) 1 10 0);
         SumTask.result_ := 0 |}.
Proof.
  split; [simpl; lia|].
  refine (proj2 (proj2 (no_samples_result_zero (L := lcg_lib) ent0
                          (fresh_task (-3) 1 10 0) _))).
  simpl; lia.
Defined.

Lemma is_int_3 : is_int 3.
Proof. by vm_compute. Defined.

Lemma summaries_ids_witness :
  ∃ c,
    SumCoordinator.new (H := lcg_lib) 3 5 1 10 = Ok c
    ∧ (SumCoordinator.summaries c).*1 = seqZ 0 3
    ∧ ∀ ents,
        (SumCoordinator.summaries (SumCoordinator.run_all (H := lcg_lib) ents c)).*1 = seqZ 0 3
        ∧ Z.of_nat (length (SumCoordinator.summaries
                              (SumCoordinator.run_all (H := lcg_lib) ents c))) = 3
        ∧ NoDup (SumCoordinator.summaries (SumCoordinator.run_all (H := lcg_lib) ents c)).*1.
Proof.
  apply (summaries_ids (L := lcg_lib) 3 5 1 10 lcg_max_size_64 is_int_3); lia.
Defined.

(** C4, as stated, fails on the bounds: with [minv = 5 > maxv = 3] the
    constructor throws nothing and returns a coordinator with one task. *)
Lemma new_accepts_min_above_max :
  3 < 5
  ∧ SumCoordinator.new (H := lcg_lib) 1 100 5 3
    = Ok {| SumCoordinator.tasks_ := [fresh_task 100 5 3 0];
            SumCoordinator.threads_ := [] |}
  ∧ ∀ e, SumCoordinator.new (H := lcg_lib) 1 100 5 3 ≠ Throw e.
Proof. split_and!; [lia|reflexivity|]. intros e. by vm_compute. Qed.

Lemma is_int_neg_1 : is_int (-1).
Proof. by vm_compute. Defined.

Lemma new_checks_count_only_witness :
  SumCoordinator.new (H := lcg_lib) (-1) 100 1 1000 = Throw length_error
  ∧ SumCoordinator.new (H := lcg_lib) 3 100 5 3
    = Ok {| SumCoordinator.tasks_ := fresh_task 100 5 3 <$> seqZ 0 3;
            SumCoordinator.threads_ := [] |}
  ∧ Forall (λ task, SumTask.Config.min_val (SumTask.cfg_ task) = 5
                    ∧ SumTask.Config.max_val (SumTask.cfg_ task) = 3)
           (fresh_task 100 5 3 <$> seqZ 0 3).
Proof.
  split; [|split; [reflexivity|]].
  - refine (proj1 (new_checks_count_only (L := lcg_lib) (-1) 100 1 1000
                     lcg_max_size_64 is_int_neg_1) _). lia.
  - refine (proj2 (proj2 (proj1 (proj2
              (new_checks_count_only (L := lcg_lib) 3 100 5 3
                 lcg_max_size_64 is_int_3))
              {| SumCoordinator.tasks_ := fresh_task 100 5 3 <$> seqZ 0 3;
                 SumCoordinator.threads_ := [] |} _))).
    reflexivity.
Defined.

Lemma run_all_sizes_equal_witness :
  ∃ c,
    SumCoordinator.new (H := lcg_lib) 3 5 1 10 = Ok c
    ∧ length (SumCoordinator.tasks_ (SumCoordinator.run_all (H := lcg_lib) (λ _, ent0) c))
      = length (SumCoordinator.threads_ (SumCoordinator.run_all (H := lcg_lib) (λ _, ent0) c))
    ∧ Z.of_nat (length (SumCoordinator.tasks_
                          (SumCoordinator.run_all (H := lcg_lib) (λ _, ent0) c))) = 3
    ∧ Forall (λ th, joinable th = false)
             (SumCoordinator.threads_ (SumCoordinator.run_all (H := lcg_lib) (λ _, ent0) c)).
Proof.
  apply (run_all_sizes_equal (L := lcg_lib) 3 5 1 10 (λ _, ent0)
           lcg_max_size_64 is_int_3). lia.
Defined.

Lemma fresh_results_zero_witness :
  SumCoordinator.summaries
    {| SumCoordinator.tasks_ := fresh_task 5 1 10 <$> seqZ 0 3;
       SumCoordinator.threads_ := [] |}
  = [(0, 0); (1, 0); (2, 0)].
Proof.
  refine (proj2 (fresh_results_zero (L := lcg_lib)) 3 5 1 10 _ _). reflexivity.
Defined.

Lemma constant_range_run_witness :
  ∃ c,
    SumCoordinator.new (H := lcg_lib) 1 5 7 7 = Ok c
    ∧ SumCoordinator.summaries (SumCoordinator.run_all (H := lcg_lib) (λ _, ent0) c) = [(0, 35)]
    ∧ SumCoordinator.best (SumCoordinator.run_all (H := lcg_lib) (λ _, ent0) c) = Some (0, 35).
Proof.
  apply (constant_range_run (L := lcg_lib) (λ _, ent0)
           lcg_uniform_in_range lcg_max_size_64).
Defined.

(** * Further properties of the code *)

Section Further.
Context `{L : StdLib}.

(** ** operator() and run_all, where the draws are defined *)

(** [operator()] reads the configuration only. *)
Lemma call_reads_cfg (ent : Entropy) (task1 task2 : SumTask.t) :
  SumTask.cfg_ task1 = SumTask.cfg_ task2 →
  SumTask.call ent task1 = SumTask.call ent task2.
Proof. intros Hcfg. unfold SumTask.call. by rewrite Hcfg. Qed.

(** Handles that are not joinable are passed over by the second loop. *)
Lemma join_each_skip (ents : nat → Entropy) (old new : list thread)
    (tasks : list SumTask.t) :
  Forall (λ th, joinable th = false) old →
  SumCoordinator.join_each ents (old ++ new) tasks
  = (old ++ (SumCoordinator.join_each ents new tasks).1,
     (SumCoordinator.join_each ents new tasks).2).
Proof.
  induction 1 as [|th old Hth _ IH]; simpl.
  - by destruct (SumCoordinator.join_each ents new tasks).
  - rewrite Hth, IH. done.
Qed.

Lemma join_each_spawned_handles (ents : nat → Entropy) (n i : nat)
    (tasks : list SumTask.t) :
  (SumCoordinator.join_each ents ((λ p, Thread p true) <$> seq i n) tasks).1
  = (λ p, Thread p false) <$> seq i n.
Proof.
  revert i tasks. induction n as [|n IH]; intros i tasks; [done|].
  cbn [seq fmap list_fmap SumCoordinator.join_each joinable].
  unfold SumCoordinator.join. cbn [target].
  specialize (IH (S i) (alter (SumTask.call (ents i)) i tasks)).
  change (list_fmap nat thread (λ p, Thread p true) (seq (S i) n))
    with ((λ p, Thread p true) <$> seq (S i) n).
  destruct (SumCoordinator.join_each ents _ _) as [ths' ts']. simpl in *.
  by rewrite IH.
Qed.

Lemma run_all_unfold (ents : nat → Entropy) (c : SumCoordinator.t) :
  Forall (λ th, joinable th = false) (SumCoordinator.threads_ c) →
  SumCoordinator.run_all ents c
  = {| SumCoordinator.tasks_ :=
         imap (λ i, SumTask.call (ents i)) (SumCoordinator.tasks_ c);
       SumCoordinator.threads_ :=
         SumCoordinator.threads_ c
         ++ ((λ i, Thread i false) <$> seq 0 (length (SumCoordinator.tasks_ c))) |}.
Proof.
  intros Hold. unfold SumCoordinator.run_all.
  rewrite spawn_each_spec, join_each_skip by done.
  rewrite join_each_spawned_handles. f_equal.
  apply list_eq; intros j. rewrite join_each_spawned, list_lookup_imap.
  case_decide as Hj; [done|].
  rewrite (proj2 (lookup_ge_None _ j)) by lia. done.
Qed.

Lemma draws_defined_cfg (tasks tasks' : list SumTask.t) :
  SumTask.cfg_ <$> tasks' = SumTask.cfg_ <$> tasks →
  Forall (λ task, draws_defined (SumTask.cfg_ task)) tasks →
  Forall (λ task, draws_defined (SumTask.cfg_ task)) tasks'.
Proof.
  intros Hcfg Hdef.
  apply (Forall_fmap SumTask.cfg_ draws_defined). rewrite Hcfg.
  by apply Forall_fmap.
Qed.

(** X1. When its draws are defined, [operator()] stores the sum of the
    values it draws in this run, reduced modulo [2^64], whatever
    [result_] held before; after an earlier run it leaves the same task
    as when run alone, and the configuration is never changed. *)
Theorem call_overwrites (ent1 ent2 : Entropy) (task : SumTask.t) (prior : Z) :
  draws_defined (SumTask.cfg_ task) →
  SumTask.call ent2 {| SumTask.cfg_ := SumTask.cfg_ task; SumTask.result_ := prior |}
  = {| SumTask.cfg_ := SumTask.cfg_ task;
       SumTask.result_ := to_uint64 (Zsum (SumTask.drawn_by ent2 task)) |}
  ∧ SumTask.call ent2 (SumTask.call ent1 task)
    = {| SumTask.cfg_ := SumTask.cfg_ task;
         SumTask.result_ := to_uint64 (Zsum (SumTask.drawn_by ent2 task)) |}.
Proof.
  intros _.
  assert (∀ task', SumTask.cfg_ task' = SumTask.cfg_ task →
            SumTask.call ent2 task'
            = {| SumTask.cfg_ := SumTask.cfg_ task;
                 SumTask.result_ := to_uint64 (Zsum (SumTask.drawn_by ent2 task)) |})
    as Hrun.
  { intros task' Hcfg. rewrite (call_reads_cfg ent2 task' task Hcfg).
    pose proof (call_cfg ent2 task) as Hkeep.
    pose proof (call_result ent2 task) as Hres.
    destruct (SumTask.call ent2 task) as [cfg res]. simpl in *. by subst. }
  split; apply Hrun; [done|apply call_cfg].
Qed.

(** X2. On a coordinator whose handles are all joined and whose tasks all
    have defined draws, a [run_all()] that returns leaves the tasks'
    configurations (number, ids, order) unchanged and adds exactly one
    handle per task; all handles are joined and all draws defined again,
    so the same holds for the next call. *)
Theorem run_all_frame (ents : nat → Entropy) (c : SumCoordinator.t) :
  Forall (λ th, joinable th = false) (SumCoordinator.threads_ c) →
  Forall (λ task, draws_defined (SumTask.cfg_ task)) (SumCoordinator.tasks_ c) →
  SumTask.cfg_ <$> SumCoordinator.tasks_ (SumCoordinator.run_all ents c)
  = SumTask.cfg_ <$> SumCoordinator.tasks_ c
  ∧ length (SumCoordinator.threads_ (SumCoordinator.run_all ents c))
    = (length (SumCoordinator.threads_ c)
       + length (SumCoordinator.tasks_ c))%nat
  ∧ Forall (λ th, joinable th = false)
           (SumCoordinator.threads_ (SumCoordinator.run_all ents c))
  ∧ Forall (λ task, draws_defined (SumTask.cfg_ task))
           (SumCoordinator.tasks_ (SumCoordinator.run_all ents c)).
Proof.
  intros _ Hdef. split_and!.
  - apply run_all_cfg.
  - apply run_all_sizes.
  - apply run_all_joined.
  - eapply draws_defined_cfg; [apply run_all_cfg|done].
Qed.

(** X3. On a coordinator whose handles are all joined (as after the
    constructor and after every [run_all()]) and whose tasks all have
    defined draws, a [run_all()] that returns has run [operator()]
    exactly once on every task, each with the entropy of its own thread,
    has kept the old handles and has appended one joined handle per
    task. *)
Theorem run_all_runs_each_task_once (ents : nat → Entropy) (c : SumCoordinator.t) :
  Forall (λ th, joinable th = false) (SumCoordinator.threads_ c) →
  Forall (λ task, draws_defined (SumTask.cfg_ task)) (SumCoordinator.tasks_ c) →
  SumCoordinator.run_all ents c
  = {| SumCoordinator.tasks_ :=
         imap (λ i, SumTask.call (ents i)) (SumCoordinator.tasks_ c);
       SumCoordinator.threads_ :=
         SumCoordinator.threads_ c
         ++ ((λ i, Thread i false) <$> seq 0 (length (SumCoordinator.tasks_ c))) |}.
Proof. intros Hold _. by apply run_all_unfold. Qed.

(** X4. On such a coordinator, a second [run_all()] starts every task
    again: when both calls have returned the tasks are as if only the
    second had run (the first results are overwritten), and [threads_]
    has grown by two handles per task, so it is longer than [tasks_]
    unless there is no task. *)
Theorem run_all_twice (ents1 ents2 : nat → Entropy) (c : SumCoordinator.t) :
  Forall (λ th, joinable th = false) (SumCoordinator.threads_ c) →
  Forall (λ task, draws_defined (SumTask.cfg_ task)) (SumCoordinator.tasks_ c) →
  SumCoordinator.tasks_
    (SumCoordinator.run_all ents2 (SumCoordinator.run_all ents1 c))
  = SumCoordinator.tasks_ (SumCoordinator.run_all ents2 c)
  ∧ length (SumCoordinator.threads_
              (SumCoordinator.run_all ents2 (SumCoordinator.run_all ents1 c)))
    = (length (SumCoordinator.threads_ c)
       + 2 * length (SumCoordinator.tasks_ c))%nat.
Proof.
  intros Hold _.
  pose proof (run_all_joined ents1 c) as Hjoined.
  split.
  - rewrite (run_all_unfold ents2 _ Hjoined), (run_all_unfold ents2 c Hold).
    rewrite (run_all_unfold ents1 c Hold). simpl.
    apply list_eq; intros j. rewrite !list_lookup_imap.
    destruct (SumCoordinator.tasks_ c !! j) as [task|]; simpl; [|done].
    f_equal. apply call_reads_cfg, call_cfg.
  - destruct (run_all_sizes ents2 (SumCoordinator.run_all ents1 c)) as [_ ->].
    destruct (run_all_sizes ents1 c) as [-> ->]. lia.
Qed.

(** ** Constructor, run_all and the queries together *)

Lemma call_result_bounded (ent : Entropy) (task : SumTask.t) :
  uniform_in_range L →
  is_int (SumTask.Config.samples (SumTask.cfg_ task)) →
  is_int (SumTask.Config.max_val (SumTask.cfg_ task)) →
  0 <= SumTask.Config.min_val (SumTask.cfg_ task) →
  SumTask.Config.min_val (SumTask.cfg_ task)
  <= SumTask.Config.max_val (SumTask.cfg_ task) →
  0 <= SumTask.Config.samples (SumTask.cfg_ task) →
  SumTask.Config.min_val (SumTask.cfg_ task)
  * SumTask.Config.samples (SumTask.cfg_ task)
  <= SumTask.result (SumTask.call ent task)
  <= SumTask.Config.max_val (SumTask.cfg_ task)
     * SumTask.Config.samples (SumTask.cfg_ task).
Proof.
  intros Hdist Hn Hmax Hpos Hle Hnn.
  pose proof (drawn_by_bounds ent task Hdist Hle Hnn) as Hsum.
  pose proof (int_product_small _ _ Hn Hmax Hnn ltac:(lia)).
  rewrite call_result. unfold to_uint64. rewrite Z.mod_small; nia.
Qed.

(** The tasks of a coordinator after the constructor and one [run_all()]. *)
Lemma new_run_all_tasks (ents : nat → Entropy)
    (thread_count samples_per_thread minv maxv : Z) :
  SumCoordinator.tasks_
    (SumCoordinator.run_all ents
       {| SumCoordinator.tasks_ :=
            fresh_task samples_per_thread minv maxv <$> seqZ 0 thread_count;
          SumCoordinator.threads_ := [] |})
  = imap (λ i, SumTask.call (ents i))
         (fresh_task samples_per_thread minv maxv <$> seqZ 0 thread_count).
Proof. by rewrite run_all_tasks. Qed.

Lemma best_spec (c : SumCoordinator.t) :
  SumCoordinator.tasks_ c ≠ [] →
  ∃ task,
    SumCoordinator.tasks_ c !! SumCoordinator.best_it c = Some task
    ∧ SumCoordinator.best c = Some (SumTask.id task, SumTask.result task)
    ∧ (∀ j u, SumCoordinator.tasks_ c !! j = Some u →
              SumTask.result u <= SumTask.result task)
    ∧ (∀ j u, (j < SumCoordinator.best_it c)%nat →
              SumCoordinator.tasks_ c !! j = Some u →
              SumTask.result u < SumTask.result task).
Proof.
  intros Hne.
  destruct (max_element_spec SumTask.result (SumCoordinator.tasks_ c) Hne)
    as (task & Hit & Hmax & Hfirst).
  fold (SumCoordinator.best_it c) in Hit, Hfirst.
  exists task. split_and!; [done| |done|done].
  unfold SumCoordinator.best. by rewrite Hit.
Qed.

Lemma fresh_run_all_bounded (ents : nat → Entropy)
    (thread_count samples_per_thread minv maxv : Z) :
  uniform_in_range L →
  is_int samples_per_thread → is_int maxv →
  0 <= samples_per_thread →
  0 <= minv →
  minv <= maxv →
  Forall (λ row, minv * samples_per_thread <= row.2
                 <= maxv * samples_per_thread)
         (SumCoordinator.summaries
            (SumCoordinator.run_all ents
               {| SumCoordinator.tasks_ :=
                    fresh_task samples_per_thread minv maxv
                      <$> seqZ 0 thread_count;
                  SumCoordinator.threads_ := [] |})).
Proof.
  intros Hdist Hs Hmax Hsnn Hpos Hle.
  rewrite summaries_fmap, new_run_all_tasks.
  apply Forall_lookup. intros j row.
  rewrite list_lookup_fmap, list_lookup_imap, list_lookup_fmap.
  destruct (seqZ 0 thread_count !! j) as [i|]; [|done].
  intros [= <-]. cbn [snd].
  by apply (call_result_bounded (ents j)
              (fresh_task samples_per_thread minv maxv i)).
Qed.

(** X5. For bounds [0 <= minv <= maxv] and a count
    [samples_per_thread >= 0], whenever the constructor has returned a
    coordinator and [run_all()] has returned, every entry of
    [summaries()] has a total between [minv * samples_per_thread] and
    [maxv * samples_per_thread]. *)
Theorem run_all_results_bounded (ents : nat → Entropy)
    (thread_count samples_per_thread minv maxv : Z) (c : SumCoordinator.t) :
  uniform_in_range L →
  is_int samples_per_thread → is_int maxv →
  0 <= samples_per_thread →
  0 <= minv →
  minv <= maxv →
  SumCoordinator.new thread_count samples_per_thread minv maxv = Ok c →
  Forall (λ row, minv * samples_per_thread <= row.2
                 <= maxv * samples_per_thread)
         (SumCoordinator.summaries (SumCoordinator.run_all ents c)).
Proof.
  intros Hdist Hs Hmax Hsnn Hpos Hle ->%new_inv.
  by apply fresh_run_all_bounded.
Qed.

(** X6. With [samples_per_thread <= 0] and at least one thread, every
    worker ends with the total [0], and the tie is broken towards the
    first task: [best()] returns [(0, 0)]. *)
Theorem zero_samples_best (ents : nat → Entropy)
    (thread_count samples_per_thread minv maxv : Z) :
  max_size_64 L →
  is_int thread_count →
  1 <= thread_count →
  samples_per_thread <= 0 →
  ∃ c,
    SumCoordinator.new thread_count samples_per_thread minv maxv = Ok c
    ∧ SumCoordinator.summaries (SumCoordinator.run_all ents c)
      = (λ i, (i, 0)) <$> seqZ 0 thread_count
    ∧ SumCoordinator.best (SumCoordinator.run_all ents c) = Some (0, 0).
Proof.
  intros Hsize Hn Hpos Hs.
  eexists. split; [apply new_ok; [done|done|lia]|].
  set (c := SumCoordinator.Make _ _).
  assert (SumCoordinator.tasks_ (SumCoordinator.run_all ents c)
          = (λ i, SumTask.Make (SumTask.cfg_ (fresh_task samples_per_thread minv maxv i)) 0)
              <$> seqZ 0 thread_count) as Hrun.
  { unfold c. rewrite new_run_all_tasks.
    apply list_eq; intros j.
    rewrite list_lookup_imap, !list_lookup_fmap.
    destruct (seqZ 0 thread_count !! j) as [i|]; [|done]. simpl.
    f_equal. unfold SumTask.call. by rewrite for_range_none. }
  split.
  - rewrite summaries_fmap, Hrun, <- list_fmap_compose. by apply list_fmap_ext.
  - assert (SumCoordinator.tasks_ (SumCoordinator.run_all ents c) ≠ []) as Hne.
    { rewrite Hrun, (seqZ_first 0 thread_count) by lia. done. }
    destruct (best_spec _ Hne) as (task & Hit & -> & _ & Hfirst).
    assert (∀ j u, SumCoordinator.tasks_ (SumCoordinator.run_all ents c) !! j
                   = Some u → SumTask.result u = 0) as Hzero.
    { intros j u. rewrite Hrun, list_lookup_fmap.
      destruct (seqZ 0 thread_count !! j); [|done]. by intros [= <-]. }
    destruct (SumCoordinator.best_it (SumCoordinator.run_all ents c)) as [|k] eqn:Hk.
    + rewrite Hrun, (seqZ_first 0 thread_count) in Hit by lia.
      simpl in Hit. by injection Hit as <-.
    + assert (is_Some (SumCoordinator.tasks_ (SumCoordinator.run_all ents c) !! 0%nat))
        as [u Hu].
      { apply lookup_lt_is_Some. apply lookup_lt_Some in Hit. lia. }
      specialize (Hfirst 0%nat u ltac:(lia) Hu).
      rewrite (Hzero _ _ Hu), (Hzero _ _ Hit) in Hfirst. lia.
Qed.

(** X7. [thread_count = 0] is accepted: the constructor returns a
    coordinator without tasks, [run_all()] starts nothing,
    [summaries()] is empty, and [best()] dereferences the end iterator. *)
Theorem empty_coordinator (ents : nat → Entropy) (samples_per_thread minv maxv : Z) :
  max_size_64 L →
  SumCoordinator.new 0 samples_per_thread minv maxv
  = Ok (SumCoordinator.Make [] [])
  ∧ SumCoordinator.run_all ents (SumCoordinator.Make [] [])
    = SumCoordinator.Make [] []
  ∧ SumCoordinator.summaries
      (SumCoordinator.run_all ents (SumCoordinator.Make [] [])) = []
  ∧ SumCoordinator.best
      (SumCoordinator.run_all ents (SumCoordinator.Make [] [])) = None.
Proof.
  intros Hsize. split_and!; [|done..].
  rewrite new_ok; [done|done|by vm_compute|lia].
Qed.

(** X8. [best()] returns the entry of [summaries()] at the position
    [max_element] found, and no entry of [summaries()] has a larger
    total; entries before that position have a smaller one. *)
Theorem best_in_summaries (c : SumCoordinator.t) :
  SumCoordinator.tasks_ c ≠ [] →
  ∃ row,
    SumCoordinator.best c = Some row
    ∧ SumCoordinator.summaries c !! SumCoordinator.best_it c = Some row
    ∧ (∀ j r, SumCoordinator.summaries c !! j = Some r → r.2 <= row.2)
    ∧ (∀ j r, (j < SumCoordinator.best_it c)%nat →
              SumCoordinator.summaries c !! j = Some r → r.2 < row.2).
Proof.
  intros Hne. destruct (best_spec c Hne) as (task & Hit & Hbest & Hmax & Hfirst).
  exists (SumTask.id task, SumTask.result task).
  rewrite summaries_fmap. split_and!.
  - done.
  - by rewrite list_lookup_fmap, Hit.
  - intros j r. rewrite list_lookup_fmap.
    destruct (SumCoordinator.tasks_ c !! j) as [u|] eqn:Hu; [|done].
    intros [= <-]. simpl. by eapply Hmax.
  - intros j r Hj. rewrite list_lookup_fmap.
    destruct (SumCoordinator.tasks_ c !! j) as [u|] eqn:Hu; [|done].
    intros [= <-]. simpl. by eapply Hfirst.
Qed.

(** ** make_seed *)

Lemma to_unsigned_range (x : Z) : is_unsigned (to_unsigned x).
Proof. unfold is_unsigned, to_unsigned. apply Z.mod_pos_bound. lia. Qed.

(** The conversion of an [int] to [unsigned] loses nothing. *)
Lemma to_unsigned_inj (i j : Z) :
  is_int i → is_int j → to_unsigned i = to_unsigned j → i = j.
Proof.
  unfold is_int, INT_MIN, INT_MAX, to_unsigned. intros Hi Hj Heq.
  pose proof (Z.div_mod i (2 ^ 32) ltac:(lia)).
  pose proof (Z.div_mod j (2 ^ 32) ltac:(lia)).
  lia.
Qed.

Lemma lxor_unsigned (a b : Z) :
  is_unsigned a → is_unsigned b → is_unsigned (Z.lxor a b).
Proof.
  unfold is_unsigned. intros [Ha Ha'] [Hb Hb'].
  assert (0 <= Z.lxor a b) as Hnn by (by apply Z.lxor_nonneg).
  split; [done|].
  destruct (decide (Z.lxor a b = 0)) as [->|Hne]; [lia|].
  apply Z.log2_lt_pow2; [lia|].
  pose proof (Z.log2_lxor a b Ha Hb) as Hlog.
  assert (Z.log2 a < 32) as Hla.
  { destruct (decide (a = 0)) as [->|]; [by vm_compute|].
    apply Z.log2_lt_pow2; lia. }
  assert (Z.log2 b < 32) as Hlb.
  { destruct (decide (b = 0)) as [->|]; [by vm_compute|].
    apply Z.log2_lt_pow2; lia. }
  lia.
Qed.


(** X10. [make_seed] seeds the engine from five words, and when the
    random device delivers [unsigned] values all five are [unsigned]
    values: the clock's tick count is cut to 32 bits before it is
    used. *)
Theorem seed_words_unsigned (ent : Entropy) (seed_hint : Z) :
  is_unsigned (rd_first ent) →
  is_unsigned (rd_second ent) →
  is_unsigned seed_hint →
  ThreadRNG.make_seed ent seed_hint = mt19937_seed (seed_words ent seed_hint)
  ∧ length (seed_words ent seed_hint) = 5%nat
  ∧ Forall is_unsigned (seed_words ent seed_hint).
Proof.
  intros H1 H2 Hh. split_and!; [done|done|].
  unfold seed_words.
  repeat (apply Forall_cons_2); [done| |done|done| |apply Forall_nil_2].
  - apply to_unsigned_range.
  - apply lxor_unsigned; [apply to_unsigned_range|by vm_compute].
Qed.

(** ** main *)


End Further.

(** * The further properties on concrete runs *)

Lemma tied_joined : Forall (λ th, joinable th = false) (SumCoordinator.threads_ tied).
Proof. repeat constructor. Defined.

Lemma is_int_5 : is_int 5.
Proof. by vm_compute. Defined.

Lemma is_int_10 : is_int 10.
Proof. by vm_compute. Defined.

Lemma tied_draws_defined :
  Forall (λ task, draws_defined (SumTask.cfg_ task)) (SumCoordinator.tasks_ tied).
Proof. repeat apply Forall_cons_2; try apply Forall_nil_2; left; simpl; lia. Defined.

Lemma call_overwrites_witness :
  SumTask.drawn_by (H := lcg_lib) ent0 (fresh_task 4 1 10 0) = [3; 10; 5; 6]
  ∧ SumTask.call (H := lcg_lib) ent0
      {| SumTask.cfg_ := SumTask.cfg_ (fresh_task 4 1 10 0);
         SumTask.result_ := 999 |}
    = {| SumTask.cfg_ := SumTask.cfg_ (fresh_task 4 1 10 0);
         SumTask.result_ :=
           to_uint64 (Zsum (SumTask.drawn_by (H := lcg_lib) ent0
                              (fresh_task 4 1 10 0))) |}.
Proof.
  split; [reflexivity|].
  refine (proj1 (call_overwrites (L := lcg_lib) ent0 ent0
                   (fresh_task 4 1 10 0) 999 _)).
  left. simpl. lia.
Defined.

Lemma run_all_frame_witness :
  SumTask.cfg_ <$> SumCoordinator.tasks_
                     (SumCoordinator.run_all (H := lcg_lib) (λ _, ent0) tied)
  = SumTask.cfg_ <$> SumCoordinator.tasks_ tied
  ∧ length (SumCoordinator.threads_
              (SumCoordinator.run_all (H := lcg_lib) (λ _, ent0) tied))
    = (length (SumCoordinator.threads_ tied)
       + length (SumCoordinator.tasks_ tied))%nat
  ∧ Forall (λ th, joinable th = false)
           (SumCoordinator.threads_
              (SumCoordinator.run_all (H := lcg_lib) (λ _, ent0) tied))
  ∧ Forall (λ task, draws_defined (SumTask.cfg_ task))
           (SumCoordinator.tasks_
              (SumCoordinator.run_all (H := lcg_lib) (λ _, ent0) tied)).
Proof.
  apply (run_all_frame (L := lcg_lib) (λ _, ent0) tied
           tied_joined tied_draws_defined).
Defined.

Lemma run_all_runs_each_task_once_witness :
  SumCoordinator.run_all (H := lcg_lib) (λ _, ent0) tied
  = {| SumCoordinator.tasks_ :=
         imap (λ i, SumTask.call (H := lcg_lib) ent0) (SumCoordinator.tasks_ tied);
       SumCoordinator.threads_ :=
         SumCoordinator.threads_ tied
         ++ ((λ i, Thread i false) <$> seq 0 (length (SumCoordinator.tasks_ tied))) |}.
Proof.
  apply (run_all_runs_each_task_once (L := lcg_lib) (λ _, ent0) tied
           tied_joined tied_draws_defined).
Defined.

Lemma run_all_twice_witness :
  SumCoordinator.tasks_
    (SumCoordinator.run_all (H := lcg_lib) (λ _, ent0)
       (SumCoordinator.run_all (H := lcg_lib) (λ _, ent0) tied))
  = SumCoordinator.tasks_ (SumCoordinator.run_all (H := lcg_lib) (λ _, ent0) tied)
  ∧ length (SumCoordinator.threads_
              (SumCoordinator.run_all (H := lcg_lib) (λ _, ent0)
                 (SumCoordinator.run_all (H := lcg_lib) (λ _, ent0) tied)))
    = (length (SumCoordinator.threads_ tied)
       + 2 * length (SumCoordinator.tasks_ tied))%nat.
Proof.
  apply (run_all_twice (L := lcg_lib) (λ _, ent0) (λ _, ent0) tied
           tied_joined tied_draws_defined).
Defined.

Lemma run_all_results_bounded_witness :
  SumCoordinator.new (H := lcg_lib) 3 5 1 10
  = Ok {| SumCoordinator.tasks_ := fresh_task 5 1 10 <$> seqZ 0 3;
          SumCoordinator.threads_ := [] |}
  ∧ Forall (λ row, 1 * 5 <= row.2 <= 10 * 5)
           (SumCoordinator.summaries
              (SumCoordinator.run_all (H := lcg_lib) (λ _, ent0)
                 {| SumCoordinator.tasks_ := fresh_task 5 1 10 <$> seqZ 0 3;
                    SumCoordinator.threads_ := [] |})).
Proof.
  split; [reflexivity|].
  apply (run_all_results_bounded (L := lcg_lib) (λ _, ent0) 3 5 1 10 _
           lcg_uniform_in_range is_int_5 is_int_10);
    [lia|lia|lia|reflexivity].
Defined.

Lemma zero_samples_best_witness :
  ∃ c,
    SumCoordinator.new (H := lcg_lib) 3 (-2) 1 10 = Ok c
    ∧ SumCoordinator.summaries (SumCoordinator.run_all (H := lcg_lib) (λ _, ent0) c)
      = (λ i, (i, 0)) <$> seqZ 0 3
    ∧ SumCoordinator.best (SumCoordinator.run_all (H := lcg_lib) (λ _, ent0) c)
      = Some (0, 0).
Proof.
  apply (zero_samples_best (L := lcg_lib) (λ _, ent0) 3 (-2) 1 10
           lcg_max_size_64 is_int_3); lia.
Defined.

Lemma empty_coordinator_witness :
  SumCoordinator.new (H := lcg_lib) 0 100 1 1000 = Ok (SumCoordinator.Make [] [])
  ∧ SumCoordinator.run_all (H := lcg_lib) (λ _, ent0) (SumCoordinator.Make [] [])
    = SumCoordinator.Make [] []
  ∧ SumCoordinator.summaries
      (SumCoordinator.run_all (H := lcg_lib) (λ _, ent0) (SumCoordinator.Make [] []))
    = []
  ∧ SumCoordinator.best
      (SumCoordinator.run_all (H := lcg_lib) (λ _, ent0) (SumCoordinator.Make [] []))
    = None.
Proof.
  apply (empty_coordinator (L := lcg_lib) (λ _, ent0) 100 1 1000 lcg_max_size_64).
Defined.

Lemma tied_not_empty : SumCoordinator.tasks_ tied ≠ [].
Proof. discriminate. Defined.

Lemma best_in_summaries_witness :
  ∃ row,
    SumCoordinator.best tied = Some row
    ∧ SumCoordinator.summaries tied !! SumCoordinator.best_it tied = Some row
    ∧ (∀ j r, SumCoordinator.summaries tied !! j = Some r → r.2 <= row.2)
    ∧ (∀ j r, (j < SumCoordinator.best_it tied)%nat →
              SumCoordinator.summaries tied !! j = Some r → r.2 < row.2).
Proof. apply (best_in_summaries tied tied_not_empty). Defined.


Lemma seed_words_unsigned_witness :
  seed_words ent0 3 = [2463534242; 77876501; 3; 88172645; 2593338540]
  ∧ Forall is_unsigned (seed_words ent0 3).
Proof.
  split; [reflexivity|].
  refine (proj2 (proj2 (seed_words_unsigned (L := lcg_lib) ent0 3 _ _ _)));
    by vm_compute.
Defined.


Lemma constant_range_result_witness :
  SumTask.result (SumTask.call (H := lcg_lib) ent0 (fresh_task 3 (-2) (-2) 0))
  = to_uint64 (-2 * 3)
  ∧ to_uint64 (-2 * 3) = 18446744073709551610.
Proof.
  split; [|reflexivity].
  apply (constant_range_result (L := lcg_lib) ent0 (fresh_task 3 (-2) (-2) 0)
           lcg_uniform_in_range); [reflexivity|simpl; lia].
Defined.
